(** * Extrinsic call view and ranked members table

    A shallow embedding of two view components:

    - [Members] (packages/page-ranked/src/Members.tsx), which arranges an
      optional sequence of member records into the props of a table;
    - [Call] with its helper [extractState] (react-components, Call.tsx),
      which projects a decoded call or extrinsic into a display structure.

    JavaScript values that may be [undefined] or [null] are options, arrays
    are lists, the widget override object is a finite map keyed by strings,
    and an arbitrary-precision [BN] is an integer of [Z].  What the
    components hand to their collaborators (the table, the parameter widget,
    the static labelled value) is modelled as the record of props they pass. *)

From Stdlib Require Import ZArith.
From stdpp Require Import base option list strings gmap.

Local Open Scope string_scope.

(** ** The collaborators the components only consume *)

(** The codec layer of the types library: every decoded value is a [Codec]
    that can print itself, [getTypeDef] parses a type name into a structural
    type, and a registry handle is passed through untouched. *)
Class Types := {
  Codec : Type;
  toHex : Codec -> string;
  toString : Codec -> string;
  TypeDef : Type;
  getTypeDef : string -> TypeDef;
  Registry : Type
}.

(** The translation function returned by [useTranslation]: a literal key and
    the interpolation replacements. *)
Class Translate := {
  t : string -> list (string * string) -> string
}.

(** ** JavaScript truthiness of the optional inputs *)

(** An optional boolean is truthy only when it is present and [true]. *)
Definition truthy (b : option bool) : bool :=
  match b with
  | Some true => true
  | _ => false
  end.

(** An optional string is truthy when it is present and not empty. *)
Definition truthyStr (s : option string) : bool :=
  match s with
  | Some s => negb (String.eqb s "")
  | None => false
  end.

(** [Array.prototype.includes] on an array of strings. *)
Definition includes (l : list string) (x : string) : bool :=
  existsb (String.eqb x) l.

(** ** Members table *)

(** Modelled from the spec: the member record of [./types], which is not part
    of the sources at hand: "an opaque record with at minimum an account
    identifier (used as a list key) and a rank value". *)
Record MemberType := {
  accountId : string;
  rank : N
}.

Module Member.
(** A [<Member key=... value=... />] element. *)
Record Element := {
  key : string;
  value : MemberType
}.
End Member.

Module Table.
(** The props and children [Members] hands to [<Table>]. *)
Record Props := {
  className : option string;
  empty : option string;
  header : list (string * string);
  children : option (list Member.Element)
}.

(** The rows below the header: an [undefined] child renders nothing. *)
Definition rows (p : Props) : list Member.Element :=
  default [] (children p).
End Table.

Definition Members {TR : Translate} (className : option string)
    (members : option (list MemberType)) : Table.Props :=
  let headerRef :=
    [ (t "members" [], "start");
      (t "rank" [], "number") ] in
  {| Table.className := className;
     Table.empty :=
       match members with
       | Some _ => Some (t "No members found" [])
       | None => None
       end;
     Table.header := headerRef;
     Table.children :=
       match members with
       | Some ms =>
           Some (map (fun a => {| Member.key := accountId a;
                                  Member.value := a |}) ms)
       | None => None
       end |}.

(** ** Extrinsic call view: data *)

(** A widget of the parameter library; only [BalanceParam] is named here. *)
Inductive Component :=
  | BalanceParam
  | OtherParam (name : string).

Abbreviation ComponentMap := (gmap string Component).

Module Param.
Record Param {TY : Types} := {
  name : string;
  type : TypeDef
}.
End Param.
Abbreviation Param := Param.Param.

Module Value.
Record Value {TY : Types} := {
  isValid : bool;
  value : Codec
}.
End Value.
Abbreviation Value := Value.Value.

Module Extracted.
Record Extracted {TY : Types} := {
  hash : option string;
  overrides : option ComponentMap;
  params : list Param;
  signature : option string;
  signatureType : option string;
  values : list Value
}.
End Extracted.
Abbreviation Extracted := Extracted.Extracted.

(** What may sit in the [multiSignature] slot of the raw extrinsic: an
    instance of [Enum], which carries the name of its variant, or any other
    value. *)
Inductive RawValue {TY : Types} :=
  | EnumValue (type : string) (inner : Codec)
  | PlainValue (inner : Codec).

Module Meta.
(** One entry of [meta.args]. *)
Record Arg {TY : Types} := {
  name : Codec;
  type : Codec
}.
End Meta.

Module Ext.
(** [_raw.signature], when there is one. *)
Record RawSignature {TY : Types} := {
  multiSignature : option RawValue
}.

(** The internal [_raw] field. *)
Record Raw {TY : Types} := {
  raw_signature : option RawSignature
}.

(** An [IExtrinsic | IMethod] as [extractState] reads it.  A plain call has
    neither [signature] nor [isSigned] nor [_raw]; nothing prevents an
    object from having some of them and not the others. *)
Record Ext {TY : Types} := {
  meta_args : list Meta.Arg;
  args : list Codec;
  hash : Codec;
  registry : Registry;
  signature : option Codec;
  isSigned : option bool;
  _raw : option Raw
}.
End Ext.
Abbreviation Ext := Ext.Ext.

Definition BALANCE_CALLS : list string :=
  [ "balances.forceTransfer"; "balances.forceUnreserve"; "balances.setBalance";
    "balances.transfer"; "balances.transferKeepAlive";
    "bounties.proposeBounty"; "bounties.proposeCurator";
    "convictionVoting.delegate";
    "crowdloan.contribute"; "crowdloan.create"; "crowdloan.edit";
    "democracy.delegate"; "democracy.propose";
    "nominationPools.bondExtra"; "nominationPools.join"; "nominationPools.unbond";
    "staking.bond"; "staking.bondExtra"; "staking.rebond"; "staking.unbond";
    "treasury.proposeSpend"; "treasury.spend";
    "vesting.forceVestedTransfer"; "vesting.vestedTransfer" ].

Definition BALANCE_OVERRIDE : ComponentMap :=
  {[ "Compact<u128>" := BalanceParam ]}.

(** ** Extrinsic call view: extraction *)

Definition isExtrinsic {TY : Types} (value : Ext) : bool :=
  match Ext.signature value with
  | Some _ => true
  | None => false
  end.

(** [value._raw?.signature?.multiSignature] *)
Definition getRawSignature {TY : Types} (value : Ext) : option RawValue :=
  raw ← Ext._raw value;
  sig ← Ext.raw_signature raw;
  Ext.multiSignature sig.

(** [raw instanceof Enum ? raw.type : null] *)
Definition enumType {TY : Types} (raw : option RawValue) : option string :=
  match raw with
  | Some (EnumValue type _) => Some type
  | _ => None
  end.

Definition extractState {TY : Types} (value : Ext)
    (withHash withSignature : option bool) (callName : option string)
    : Extracted :=
  let overrides :=
    if truthyStr callName && includes BALANCE_CALLS (default "" callName)
    then Some BALANCE_OVERRIDE
    else None in
  let params :=
    map (fun a => {| Param.name := toString (Meta.name a);
                     Param.type := getTypeDef (toString (Meta.type a)) |})
        (Ext.meta_args value) in
  let values :=
    map (fun value => {| Value.isValid := true; Value.value := value |})
        (Ext.args value) in
  let hash :=
    if truthy withHash then Some (toHex (Ext.hash value)) else None in
  let guarded :=
    truthy withSignature && isExtrinsic value && truthy (Ext.isSigned value) in
  let raw := getRawSignature value in
  let signature :=
    if guarded then toHex <$> Ext.signature value else None in
  let signatureType :=
    if guarded then enumType raw else None in
  {| Extracted.hash := hash;
     Extracted.overrides := overrides;
     Extracted.params := params;
     Extracted.signature := signature;
     Extracted.signatureType := signatureType;
     Extracted.values := values |}.

(** The guard of the signature branch of [extractState]. *)
Definition signatureGuard {TY : Types} (value : Ext) (ws : option bool)
    : bool :=
  truthy ws && isExtrinsic value && truthy (Ext.isSigned value).

(** ** Extrinsic call view: the component *)

(** An opaque [onError] callback, known by its identity only. *)
Inductive Callback :=
  | callback (id : nat).

(** A JavaScript number, as far as truthiness tells numbers apart: [NaN], an
    integer (zero is the only falsy one), or any other number (a fraction or
    an infinity, known by its printed form), which is never zero. *)
Inductive JsNumber :=
  | NumNaN
  | NumInteger (n : Z)
  | NumOther (repr : string).

(** A [React.ReactNode] other than [undefined]: [null], a boolean, a text, a
    number, an element (known by its identity only) or a sequence of
    nodes. *)
#[warnings="-register-all"]
Inductive ReactNode :=
  | NodeNull
  | NodeBool (b : bool)
  | NodeText (s : string)
  | NodeNumber (x : JsNumber)
  | NodeElement (id : nat)
  | NodeList (nodes : list ReactNode).

(** A string is a node. *)
Coercion NodeText : string >-> ReactNode.

(** Truthiness of an optional node: [undefined], [null], [false], the empty
    string, zero and [NaN] are falsy; every other node is truthy, elements
    and sequences (also the empty one) included. *)
Definition truthyNode (n : option ReactNode) : bool :=
  match n with
  | None => false
  | Some NodeNull => false
  | Some (NodeBool b) => b
  | Some (NodeText s) => negb (String.eqb s "")
  | Some (NodeNumber NumNaN) => false
  | Some (NodeNumber (NumInteger n)) => negb (Z.eqb n 0)
  | Some (NodeNumber (NumOther _)) => true
  | Some (NodeElement _) => true
  | Some (NodeList _) => true
  end.

Module Props.
(** The props of [Call].  Labels and children are React nodes, the mortality
    is a string, [tip] is a [BN]. *)
Record Props {TY : Types} := {
  callName : option string;
  children : option ReactNode;
  className : option string;
  labelHash : option ReactNode;
  labelSignature : option ReactNode;
  mortality : option string;
  noIndent : option bool;
  onError : option Callback;
  value : Ext;
  withBorder : option bool;
  withHash : option bool;
  withSignature : option bool;
  tip : option Z
}.
End Props.
Abbreviation Props := Props.Props.

Module Params.
(** The props handed to the [<Params>] widget. *)
Record Props {TY : Types} := {
  isDisabled : bool;
  onError : option Callback;
  overrides : option ComponentMap;
  params : list Param;
  registry : Registry;
  values : list Value;
  withBorder : option bool
}.
End Params.

Module Static.
(** What a [<Static>] row displays: a text, or a [<FormatBalance>] of an
    amount. *)
Inductive Content :=
  | Text (s : string)
  | FormatBalance (value : Z).

(** The props handed to a [<Static>] row. *)
Record Props := {
  className : string;
  label : ReactNode;
  value : Content;
  withCopy : bool
}.
End Static.

Module View.
(** The element tree [Call] returns.  A row that the JSX guards with a falsy
    value is absent. *)
Record View {TY : Types} := {
  className : string;
  params : Params.Props;
  children : option ReactNode;
  toplevel : string;
  signatureRow : option Static.Props;
  hashRow : option Static.Props;
  mortalityRow : option Static.Props;
  tipRow : option Static.Props
}.
End View.
Abbreviation View := View.View.

(** The initial value of the [useState] cell. *)
Definition initialExtracted {TY : Types} : Extracted :=
  {| Extracted.hash := None;
     Extracted.overrides := None;
     Extracted.params := [];
     Extracted.signature := None;
     Extracted.signatureType := None;
     Extracted.values := [] |}.

(** The dependency array of the effect. *)
Definition Call_deps {TY : Types} (p : Props)
    : option string * Ext * option bool * option bool :=
  (Props.callName p, Props.value p, Props.withHash p, Props.withSignature p).

(** What the effect stores with [setExtracted] when it runs. *)
Definition Call_effect {TY : Types} (p : Props) : Extracted :=
  extractState (Props.value p) (Props.withHash p) (Props.withSignature p)
               (Props.callName p).

(** [tip?.gtn(0)]: [undefined] without a tip, else whether it exceeds zero. *)
Definition tipIsPositive (tip : option Z) : option bool :=
  (fun n => Z.ltb 0 n) <$> tip.

(** [a || b] on an optional node and a node: the first one when it is
    truthy, whatever kind of node it is, and the second one otherwise. *)
Definition orElse (a : option ReactNode) (b : ReactNode) : ReactNode :=
  match a with
  | Some n => if truthyNode a then n else b
  | None => b
  end.

(** The render function of [Call], given the current content of the state
    cell. *)
Definition Call {TY : Types} {TR : Translate} (p : Props) (st : Extracted) : View :=
  let className := default "" (Props.className p) in
  let signature := Extracted.signature st in
  let signatureType := Extracted.signatureType st in
  let hash := Extracted.hash st in
  {| View.className := "ui--Extrinsic " +:+ className;
     View.params :=
       {| Params.isDisabled := true;
          Params.onError := Props.onError p;
          Params.overrides := Extracted.overrides st;
          Params.params := Extracted.params st;
          Params.registry := Ext.registry (Props.value p);
          Params.values := Extracted.values st;
          Params.withBorder := Props.withBorder p |};
     View.children := Props.children p;
     View.toplevel :=
       "ui--Extrinsic--toplevel" +:+
         (if truthy (Props.noIndent p) then " noIndent" else "");
     View.signatureRow :=
       if truthyStr signature
       then Some {| Static.className := "hash";
                    Static.label :=
                      orElse (Props.labelSignature p)
                        (t "signature {{type}}"
                           [("type",
                             if truthyStr signatureType
                             then "(" +:+ default "" signatureType +:+ ")"
                             else "")]);
                    Static.value := Static.Text (default "" signature);
                    Static.withCopy := true |}
       else None;
     View.hashRow :=
       if truthyStr hash
       then Some {| Static.className := "hash";
                    Static.label :=
                      orElse (Props.labelHash p) (t "extrinsic hash" []);
                    Static.value := Static.Text (default "" hash);
                    Static.withCopy := true |}
       else None;
     View.mortalityRow :=
       if truthyStr (Props.mortality p)
       then Some {| Static.className := "mortality";
                    Static.label := t "lifetime" [];
                    Static.value :=
                      Static.Text (default "" (Props.mortality p));
                    Static.withCopy := false |}
       else None;
     View.tipRow :=
       match Props.tip p with
       | Some tip =>
           if truthy (tipIsPositive (Some tip))
           then Some {| Static.className := "tip";
                        Static.label := t "tip" [];
                        Static.value := Static.FormatBalance tip;
                        Static.withCopy := false |}
           else None
       | None => None
       end |}.

(** ** Extrinsic call view: the state cell over successive renders *)

Module Pass.
(** One render pass over the mounted component: the props of the pass, and
    whether the effect runs once the pass is committed. *)
Record Pass {TY : Types} := {
  props : Props;
  runsEffect : bool
}.
End Pass.
Abbreviation Pass := Pass.Pass.

(** The state cell once a pass is committed: when the effect runs,
    [setExtracted] replaces the content of the cell; when it is skipped the
    cell keeps what it held. *)
Definition commit {TY : Types} (st : Extracted) (pass : Pass) : Extracted :=
  if Pass.runsEffect pass then Call_effect (Pass.props pass) else st.

(** The state cell after a sequence of passes, starting from the initial
    value given to [useState]. *)
Definition stateAfter {TY : Types} (passes : list Pass) : Extracted :=
  foldl commit initialExtracted passes.

(** How an effect with a dependency array is scheduled: it runs after the
    first pass, and after a later pass it is skipped only if every entry of
    the dependency array is what it was in the pass before.  (It may run
    although the entries have the same content: a fresh object is a changed
    dependency.) *)
Inductive scheduled {TY : Types} : option Props → list Pass → Prop :=
  | scheduled_done (prev : option Props) :
      scheduled prev []
  | scheduled_mount (pass : Pass) (rest : list Pass) :
      Pass.runsEffect pass = true →
      scheduled (Some (Pass.props pass)) rest →
      scheduled None (pass :: rest)
  | scheduled_update (prev : Props) (pass : Pass) (rest : list Pass) :
      (Pass.runsEffect pass = false →
       Call_deps prev = Call_deps (Pass.props pass)) →
      scheduled (Some (Pass.props pass)) rest →
      scheduled (Some prev) (pass :: rest).

(** Whether the metadata of a call lists an argument of the compact
    large-unsigned-integer type. *)
Definition declaresCompact {TY : Types} (value : Ext) : Prop :=
  "Compact<u128>" ∈ map (fun a => toString (Meta.type a)) (Ext.meta_args value).

(** ** Concrete inputs *)

(** A codec that carries its two printed forms. *)
Record SampleCodec := {
  hex : string;
  text : string
}.

Definition sampleTypes : Types :=
  {| Codec := SampleCodec;
     toHex := hex;
     toString := text;
     TypeDef := string;
     getTypeDef := fun s => s;
     Registry := unit |}.

Definition sampleTranslate : Translate :=
  {| t := fun key _ => key |}.

Section Samples.

#[local] Existing Instance sampleTypes.

Definition textCodec (s : string) : SampleCodec :=
  {| hex := "0x"; text := s |}.

Definition hexCodec (h : string) : SampleCodec :=
  {| hex := h; text := h |}.

Definition transferArgs : list (@Meta.Arg sampleTypes) :=
  [ {| Meta.name := textCodec "dest"; Meta.type := textCodec "MultiAddress" |};
    {| Meta.name := textCodec "value"; Meta.type := textCodec "Compact<u128>" |} ].

(** An unsigned [balances.transfer] call. *)
Definition transferCall : @Ext sampleTypes :=
  {| Ext.meta_args := transferArgs;
     Ext.args := [hexCodec "0x00d4"; hexCodec "0x0700"];
     Ext.hash := hexCodec "0xabcd";
     Ext.registry := tt;
     Ext.signature := None;
     Ext.isSigned := None;
     Ext._raw := None |}.

(** The same call inside an extrinsic signed with an sr25519 key. *)
Definition signedTransfer : @Ext sampleTypes :=
  {| Ext.meta_args := transferArgs;
     Ext.args := [hexCodec "0x00d4"; hexCodec "0x0700"];
     Ext.hash := hexCodec "0x1234";
     Ext.registry := tt;
     Ext.signature := Some (hexCodec "0x5e5e");
     Ext.isSigned := Some true;
     Ext._raw :=
       Some {| Ext.raw_signature :=
                 Some {| Ext.multiSignature :=
                           Some (EnumValue "Sr25519" (hexCodec "0x5e5e")) |} |} |}.

(** A signed extrinsic whose raw envelope is not an [Enum]. *)
Definition signedPlain : @Ext sampleTypes :=
  {| Ext.meta_args := transferArgs;
     Ext.args := [hexCodec "0x00d4"; hexCodec "0x0700"];
     Ext.hash := hexCodec "0x1234";
     Ext.registry := tt;
     Ext.signature := Some (hexCodec "0x5e5e");
     Ext.isSigned := Some true;
     Ext._raw :=
       Some {| Ext.raw_signature :=
                 Some {| Ext.multiSignature :=
                           Some (PlainValue (hexCodec "0x5e5e")) |} |} |}.

(** An unsigned extrinsic: the [signature] accessor is there, [isSigned] is
    false. *)
Definition unsignedTransfer : @Ext sampleTypes :=
  {| Ext.meta_args := transferArgs;
     Ext.args := [hexCodec "0x00d4"; hexCodec "0x0700"];
     Ext.hash := hexCodec "0x1234";
     Ext.registry := tt;
     Ext.signature := Some (hexCodec "0x0000");
     Ext.isSigned := Some false;
     Ext._raw :=
       Some {| Ext.raw_signature :=
                 Some {| Ext.multiSignature :=
                           Some (EnumValue "Ed25519" (hexCodec "0x0000")) |} |} |}.

(** A call without any compact argument. *)
Definition remarkCall : @Ext sampleTypes :=
  {| Ext.meta_args :=
       [ {| Meta.name := textCodec "remark"; Meta.type := textCodec "Bytes" |} ];
     Ext.args := [hexCodec "0x00"];
     Ext.hash := hexCodec "0xfeed";
     Ext.registry := tt;
     Ext.signature := None;
     Ext.isSigned := None;
     Ext._raw := None |}.

Definition plainProps (value : @Ext sampleTypes) (callName : option string)
    : @Props sampleTypes :=
  {| Props.callName := callName;
     Props.children := None;
     Props.className := None;
     Props.labelHash := None;
     Props.labelSignature := None;
     Props.mortality := None;
     Props.noIndent := None;
     Props.onError := None;
     Props.value := value;
     Props.withBorder := None;
     Props.withHash := Some true;
     Props.withSignature := Some true;
     Props.tip := None |}.

Definition decoratedProps (value : @Ext sampleTypes) (callName : option string)
    : @Props sampleTypes :=
  {| Props.callName := callName;
     Props.children := None;
     Props.className := None;
     Props.labelHash := Some (NodeText "hash");
     Props.labelSignature := Some (NodeText "signed by");
     Props.mortality := Some "mortal, valid from #100 to #164";
     Props.noIndent := None;
     Props.onError := None;
     Props.value := value;
     Props.withBorder := None;
     Props.withHash := Some true;
     Props.withSignature := Some true;
     Props.tip := Some 5%Z |}.

Definition tipProps (tip : option Z) : @Props sampleTypes :=
  {| Props.callName := None;
     Props.children := None;
     Props.className := None;
     Props.labelHash := None;
     Props.labelSignature := None;
     Props.mortality := None;
     Props.noIndent := None;
     Props.onError := None;
     Props.value := remarkCall;
     Props.withBorder := None;
     Props.withHash := None;
     Props.withSignature := None;
     Props.tip := tip |}.

End Samples.

Definition alice : MemberType := {| accountId := "5GrwvaEF"; rank := 3 |}.
Definition bob : MemberType := {| accountId := "5FHneW46"; rank := 1 |}.

Definition carol : MemberType := {| accountId := "5GrwvaEF"; rank := 0 |}.

Section MoreSamples.

#[local] Existing Instance sampleTypes.

(** A signed extrinsic whose raw representation is not at hand. *)
Definition signedNoRaw : @Ext sampleTypes :=
  {| Ext.meta_args := transferArgs;
     Ext.args := [hexCodec "0x00d4"; hexCodec "0x0700"];
     Ext.hash := hexCodec "0x1234";
     Ext.registry := tt;
     Ext.signature := Some (hexCodec "0x5e5e");
     Ext.isSigned := Some true;
     Ext._raw := Some {| Ext.raw_signature := None |} |}.

(** Props whose two labels are elements, not texts. *)
Definition elementLabelProps : @Props sampleTypes :=
  {| Props.callName := None;
     Props.children := None;
     Props.className := None;
     Props.labelHash := Some (NodeElement 1);
     Props.labelSignature := Some (NodeElement 2);
     Props.mortality := None;
     Props.noIndent := None;
     Props.onError := None;
     Props.value := signedTransfer;
     Props.withBorder := None;
     Props.withHash := Some true;
     Props.withSignature := Some true;
     Props.tip := None |}.

(** Mount with plain props, then a pass that only adds labels, mortality
    and tip, after which the effect is skipped. *)
Definition cosmeticPasses : list (@Pass sampleTypes) :=
  [ {| Pass.props := plainProps signedTransfer (Some "balances.transfer");
       Pass.runsEffect := true |};
    {| Pass.props := decoratedProps signedTransfer (Some "balances.transfer");
       Pass.runsEffect := false |} ].

End MoreSamples.

(** ** Properties of the helpers *)

Lemma includes_elem_of (l : list string) (x : string) :
  includes l x = true ↔ x ∈ l.
Proof.
  unfold includes. rewrite existsb_exists. split.
  - intros (y & Hy & Heq). apply String.eqb_eq in Heq. subst y.
    by apply list_elem_of_In.
  - intros Hx. exists x. split; [by apply list_elem_of_In | apply String.eqb_refl].
Qed.

Lemma includes_not_elem_of (l : list string) (x : string) :
  includes l x = false ↔ x ∉ l.
Proof.
  rewrite <- includes_elem_of. destruct (includes l x); split; congruence.
Qed.

(** No allow-listed name is the empty string, so the truthiness test in front
    of [includes] never hides a listed name. *)
Lemma allow_list_truthy (name : string) :
  name ∈ BALANCE_CALLS → truthyStr (Some name) = true.
Proof.
  intros Hin. simpl. destruct (String.eqb_spec name "") as [-> | ]; [| done].
  apply includes_elem_of in Hin. vm_compute in Hin. discriminate.
Qed.

Lemma lookup_map {A B} (f : A → B) (l : list A) (i : nat) :
  map f l !! i = f <$> l !! i.
Proof.
  revert i. induction l as [| x l IH]; intros [| i]; simpl; auto.
Qed.

(** The override of the extraction as a function of the call name alone. *)
Lemma overrides_extractState {TY : Types} (value : Ext) (wh ws : option bool)
    (callName : option string) :
  Extracted.overrides (extractState value wh ws callName) =
  if truthyStr callName && includes BALANCE_CALLS (default "" callName)
  then Some BALANCE_OVERRIDE
  else None.
Proof. reflexivity. Qed.

Lemma overrides_listed {TY : Types} (value : Ext) (wh ws : option bool)
    (name : string) :
  name ∈ BALANCE_CALLS →
  Extracted.overrides (extractState value wh ws (Some name)) =
  Some BALANCE_OVERRIDE.
Proof.
  intros Hin. rewrite overrides_extractState.
  rewrite (allow_list_truthy name Hin).
  change (default "" (Some name)) with name.
  apply includes_elem_of in Hin. by rewrite Hin.
Qed.

Lemma overrides_unlisted {TY : Types} (value : Ext) (wh ws : option bool)
    (name : string) :
  name ∉ BALANCE_CALLS →
  Extracted.overrides (extractState value wh ws (Some name)) = None.
Proof.
  intros Hin. rewrite overrides_extractState.
  change (default "" (Some name)) with name.
  apply includes_not_elem_of in Hin. rewrite Hin.
  by rewrite andb_false_r.
Qed.

Lemma signature_extractState {TY : Types} (value : Ext) (wh ws : option bool)
    (callName : option string) :
  Extracted.signature (extractState value wh ws callName) =
  if signatureGuard value ws then toHex <$> Ext.signature value else None.
Proof. reflexivity. Qed.

Lemma signatureType_extractState {TY : Types} (value : Ext) (wh ws : option bool)
    (callName : option string) :
  Extracted.signatureType (extractState value wh ws callName) =
  if signatureGuard value ws then enumType (getRawSignature value) else None.
Proof. reflexivity. Qed.

Lemma signatureGuard_signed {TY : Types} (value : Ext) (sig : Codec) :
  Ext.signature value = Some sig → Ext.isSigned value = Some true →
  signatureGuard value (Some true) = true.
Proof.
  intros Hsig Hsigned. unfold signatureGuard, isExtrinsic.
  by rewrite Hsig, Hsigned.
Qed.

Lemma signatureGuard_unsigned {TY : Types} (value : Ext) (ws : option bool) :
  isExtrinsic value = false ∨ truthy (Ext.isSigned value) = false →
  signatureGuard value ws = false.
Proof.
  unfold signatureGuard. intros [-> | ->].
  - by rewrite andb_false_r.
  - by rewrite andb_false_r.
Qed.

(** ** The override map *)

(** C1: when the dotted call name is in the allow-list and the call declares
    a [Compact<u128>] argument, the override map of [extractState] has an
    entry for ["Compact<u128>"]; when the call name is not in the allow-list,
    or is absent, the override map is absent, whatever the argument types. *)
Theorem extractState_overrides_allow_list {TY : Types} (value : Ext)
    (wh ws : option bool) (callName : option string) :
  (∀ name, callName = Some name → name ∈ BALANCE_CALLS →
     declaresCompact value →
     ∃ m, Extracted.overrides (extractState value wh ws callName) = Some m
          ∧ is_Some (m !! "Compact<u128>"))
  ∧ ((callName = None ∨ ∃ name, callName = Some name ∧ name ∉ BALANCE_CALLS) →
     Extracted.overrides (extractState value wh ws callName) = None).
Proof.
  split.
  - intros name -> Hin _. exists BALANCE_OVERRIDE. split.
    + by apply overrides_listed.
    + unfold BALANCE_OVERRIDE. rewrite lookup_singleton_eq. by eexists.
  - intros [-> | (name & -> & Hout)].
    + reflexivity.
    + by apply overrides_unlisted.
Qed.

Lemma extractState_overrides_allow_list_witness :
  (∃ m, Extracted.overrides
          (extractState transferCall None None (Some "balances.transfer"))
        = Some m ∧ is_Some (m !! "Compact<u128>"))
  ∧ Extracted.overrides
      (extractState transferCall None None (Some "system.remark")) = None
  ∧ Extracted.overrides (extractState transferCall None None None) = None.
Proof.
  split; [| split].
  - apply (proj1 (extractState_overrides_allow_list
                    transferCall None None (Some "balances.transfer"))
             "balances.transfer" eq_refl).
    + apply includes_elem_of. reflexivity.
    + unfold declaresCompact. simpl. apply list_elem_of_In. simpl. auto.
  - apply (proj2 (extractState_overrides_allow_list
                    transferCall None None (Some "system.remark"))).
    right. exists "system.remark". split; [reflexivity |].
    apply includes_not_elem_of. reflexivity.
  - apply (proj2 (extractState_overrides_allow_list
                    transferCall None None None)).
    by left.
Defined.

(** C10: allow-list membership of the call name alone decides the override
    map.  For a listed name [extractState] returns the constant
    [BALANCE_OVERRIDE], whose only entry maps ["Compact<u128>"] to
    [BalanceParam], whether or not the call declares a compact argument; for
    a name that is not listed, or no name at all, there is no map, so that a
    map is present exactly for the listed names; the result does not change
    with the call value or the flags; and it is always either absent or that
    constant. *)
Theorem extractState_overrides_by_name_only {TY : Types} (value value' : Ext)
    (wh ws wh' ws' : option bool) (callName : option string) :
  (∀ name, callName = Some name → name ∈ BALANCE_CALLS →
     Extracted.overrides (extractState value wh ws callName)
     = Some BALANCE_OVERRIDE)
  ∧ Extracted.overrides (extractState value wh ws callName)
    = Extracted.overrides (extractState value' wh' ws' callName)
  ∧ (Extracted.overrides (extractState value wh ws callName) = None
     ∨ Extracted.overrides (extractState value wh ws callName)
       = Some BALANCE_OVERRIDE)
  ∧ BALANCE_OVERRIDE !! "Compact<u128>" = Some BalanceParam
  ∧ dom BALANCE_OVERRIDE = ({[ "Compact<u128>" ]} : gset string)
  ∧ (callName = None ∨ (∃ name, callName = Some name ∧ name ∉ BALANCE_CALLS) →
     Extracted.overrides (extractState value wh ws callName) = None)
  ∧ (is_Some (Extracted.overrides (extractState value wh ws callName)) ↔
     ∃ name, callName = Some name ∧ name ∈ BALANCE_CALLS).
Proof.
  split; [| split; [| split; [| split; [| split; [| split]]]]].
  - intros name -> Hin. by apply overrides_listed.
  - by rewrite !overrides_extractState.
  - rewrite overrides_extractState. destruct (_ && _); auto.
  - unfold BALANCE_OVERRIDE. apply lookup_singleton_eq.
  - unfold BALANCE_OVERRIDE. apply dom_singleton_L.
  - intros [-> | (name & -> & Hout)]; [reflexivity |].
    by apply overrides_unlisted.
  - destruct callName as [name |].
    + destruct (includes BALANCE_CALLS name) eqn:Hlisted.
      * apply includes_elem_of in Hlisted.
        rewrite (overrides_listed value wh ws name Hlisted).
        split; [eauto | by eexists].
      * apply includes_not_elem_of in Hlisted.
        rewrite (overrides_unlisted value wh ws name Hlisted).
        split; [intros [m Hm]; discriminate Hm |].
        intros (name' & [= <-] & Hin). by destruct Hlisted.
    + split; [intros [m Hm]; discriminate Hm |].
      intros (name & Hname & _). discriminate Hname.
Qed.

Lemma extractState_overrides_by_name_only_witness :
  ¬ declaresCompact remarkCall
  ∧ Extracted.overrides
      (extractState remarkCall None None (Some "staking.bond"))
    = Some BALANCE_OVERRIDE
  ∧ declaresCompact transferCall
  ∧ Extracted.overrides
      (extractState transferCall None None (Some "system.remark")) = None
  ∧ Extracted.overrides (extractState transferCall None None None) = None.
Proof.
  split; [| split; [| split; [| split]]].
  - unfold declaresCompact. simpl. intros Hin.
    apply list_elem_of_In in Hin. simpl in Hin.
    destruct Hin as [Heq | []]. discriminate Heq.
  - apply (proj1 (extractState_overrides_by_name_only
                    remarkCall transferCall None None None None
                    (Some "staking.bond"))
             "staking.bond" eq_refl).
    apply includes_elem_of. reflexivity.
  - unfold declaresCompact. simpl. apply list_elem_of_In. simpl. auto.
  - pose proof (extractState_overrides_by_name_only
                  transferCall remarkCall None None None None
                  (Some "system.remark")) as (_ & _ & _ & _ & _ & Hnone & _).
    apply Hnone. right. exists "system.remark". split; [reflexivity |].
    apply includes_not_elem_of. reflexivity.
  - pose proof (extractState_overrides_by_name_only
                  transferCall remarkCall None None None None None)
      as (_ & _ & _ & _ & _ & Hnone & _).
    apply Hnone. by left.
Defined.

(** ** Hash, parameters and values *)

(** C5: the hash field of [extractState] is null when [withHash] is false
    (or left out), and is the hex encoding of the content hash of the value
    when [withHash] is true. *)
Theorem extractState_hash {TY : Types} (value : Ext) (ws : option bool)
    (callName : option string) :
  Extracted.hash (extractState value (Some false) ws callName) = None
  ∧ Extracted.hash (extractState value None ws callName) = None
  ∧ Extracted.hash (extractState value (Some true) ws callName)
    = Some (toHex (Ext.hash value)).
Proof. repeat split. Qed.

(** C6: the parameter descriptors of [extractState] follow [meta.args]
    position by position, the name being the string form of the argument
    name and the type the structural type of the string form of the argument
    type; the values follow [args] position by position; and every value
    entry is marked valid. *)
Theorem extractState_params_values {TY : Types} (value : Ext)
    (wh ws : option bool) (callName : option string) :
  let st := extractState value wh ws callName in
  length (Extracted.params st) = length (Ext.meta_args value)
  ∧ (∀ i a, Ext.meta_args value !! i = Some a →
       ∃ p, Extracted.params st !! i = Some p
            ∧ Param.name p = toString (Meta.name a)
            ∧ Param.type p = getTypeDef (toString (Meta.type a)))
  ∧ length (Extracted.values st) = length (Ext.args value)
  ∧ (∀ i, Value.value <$> Extracted.values st !! i = Ext.args value !! i)
  ∧ Forall (fun v => Value.isValid v = true) (Extracted.values st).
Proof.
  simpl. split; [| split; [| split; [| split]]].
  - apply length_map.
  - intros i a Ha. rewrite lookup_map, Ha. simpl. eauto.
  - apply length_map.
  - intros i. rewrite lookup_map. by destruct (Ext.args value !! i).
  - apply Forall_forall. intros v Hv. apply list_elem_of_In in Hv.
    apply in_map_iff in Hv. destruct Hv as (c & <- & _). reflexivity.
Qed.

(** ** Signature *)

(** C2: for a signed extrinsic and [withSignature] true, the signature field
    is the hex encoding of the signature value, and the signature type is
    the variant tag of the raw multi-signature envelope when that envelope is
    an [Enum], and null when it is anything else or missing. *)
Theorem extractState_signed {TY : Types} (value : Ext) (wh : option bool)
    (callName : option string) (sig : Codec) :
  Ext.signature value = Some sig →
  Ext.isSigned value = Some true →
  let st := extractState value wh (Some true) callName in
  Extracted.signature st = Some (toHex sig)
  ∧ (∀ tag inner, getRawSignature value = Some (EnumValue tag inner) →
       Extracted.signatureType st = Some tag)
  ∧ ((∀ tag inner, getRawSignature value ≠ Some (EnumValue tag inner)) →
       Extracted.signatureType st = None).
Proof.
  intros Hsig Hsigned st. subst st.
  rewrite signature_extractState, signatureType_extractState.
  rewrite (signatureGuard_signed value sig Hsig Hsigned), Hsig.
  split; [reflexivity | split].
  - intros tag inner Hraw. by rewrite Hraw.
  - intros Hraw.
    destruct (getRawSignature value) as [[tag inner | inner] |]; simpl; auto.
    by destruct (Hraw tag inner).
Qed.

Lemma extractState_signed_witness :
  Extracted.signature (extractState signedTransfer None (Some true) None)
  = Some "0x5e5e"
  ∧ Extracted.signatureType (extractState signedTransfer None (Some true) None)
    = Some "Sr25519"
  ∧ Extracted.signatureType (extractState signedPlain None (Some true) None)
    = None.
Proof.
  pose proof (extractState_signed (TY:=sampleTypes) signedTransfer None None
                (hexCodec "0x5e5e") eq_refl eq_refl) as (Hs & Ht & _).
  pose proof (extractState_signed (TY:=sampleTypes) signedPlain None None
                (hexCodec "0x5e5e") eq_refl eq_refl) as (_ & _ & Hn).
  split; [exact Hs | split].
  - exact (Ht "Sr25519" (hexCodec "0x5e5e") eq_refl).
  - apply Hn. intros tag inner. discriminate.
Defined.

(** C4: for an unsigned call or an unsigned extrinsic and [withSignature]
    true, both the signature and the signature type of [extractState] are
    null, also when the object has a [signature] accessor: the [isSigned]
    test guards the extraction. *)
Theorem extractState_unsigned {TY : Types} (value : Ext) (wh : option bool)
    (callName : option string) :
  isExtrinsic value = false ∨ truthy (Ext.isSigned value) = false →
  let st := extractState value wh (Some true) callName in
  Extracted.signature st = None ∧ Extracted.signatureType st = None.
Proof.
  intros Hunsigned st. subst st.
  rewrite signature_extractState, signatureType_extractState.
  by rewrite (signatureGuard_unsigned value (Some true) Hunsigned).
Qed.

Lemma extractState_unsigned_witness :
  is_Some (Ext.signature unsignedTransfer)
  ∧ Extracted.signature (extractState unsignedTransfer None (Some true) None)
    = None
  ∧ Extracted.signatureType
      (extractState unsignedTransfer None (Some true) None) = None.
Proof.
  split; [by eexists |].
  apply (extractState_unsigned (TY:=sampleTypes) unsignedTransfer None None).
  right. reflexivity.
Defined.

(** ** Dependencies of the derived structure *)

(** C9: two invocations that agree on the call name, the call or extrinsic
    value and the two inclusion flags derive the same structure (hash,
    overrides, params, signature, signature type, values), however their
    labels, mortality and tip differ. *)
Theorem Call_effect_cosmetic_independent {TY : Types} (p q : Props) :
  Props.callName p = Props.callName q →
  Props.value p = Props.value q →
  Props.withHash p = Props.withHash q →
  Props.withSignature p = Props.withSignature q →
  Call_deps p = Call_deps q ∧ Call_effect p = Call_effect q.
Proof.
  intros Hname Hvalue Hhash Hsig. unfold Call_deps, Call_effect.
  by rewrite Hname, Hvalue, Hhash, Hsig.
Qed.

Lemma Call_effect_cosmetic_independent_witness :
  Props.tip (plainProps signedTransfer (Some "balances.transfer"))
  ≠ Props.tip (decoratedProps signedTransfer (Some "balances.transfer"))
  ∧ Call_effect (plainProps signedTransfer (Some "balances.transfer"))
    = Call_effect (decoratedProps signedTransfer (Some "balances.transfer")).
Proof.
  split; [discriminate |].
  apply (Call_effect_cosmetic_independent
           (plainProps signedTransfer (Some "balances.transfer"))
           (decoratedProps signedTransfer (Some "balances.transfer"))
           eq_refl eq_refl eq_refl eq_refl).
Defined.

(** ** Tip row *)

(** C8: the tip row of [Call] is left out when the tip is absent or zero,
    and it is present, showing the tip through the balance formatter, exactly
    when the tip is strictly positive. *)
Theorem Call_tip_row {TY : Types} {TR : Translate} (p : Props) (st : Extracted) :
  (Props.tip p = None ∨ Props.tip p = Some 0%Z →
     View.tipRow (Call p st) = None)
  ∧ (is_Some (View.tipRow (Call p st))
     ↔ ∃ tip, Props.tip p = Some tip ∧ (0 < tip)%Z)
  ∧ (∀ tip, Props.tip p = Some tip → (0 < tip)%Z →
       ∃ row, View.tipRow (Call p st) = Some row
              ∧ Static.value row = Static.FormatBalance tip
              ∧ Static.className row = "tip"
              ∧ Static.label row = t "tip" []).
Proof.
  unfold Call. simpl. split; [| split].
  - intros [-> | ->]; reflexivity.
  - destruct (Props.tip p) as [tip |]; simpl.
    + destruct (Z.ltb_spec 0 tip) as [Hpos | Hle]; simpl; split.
      * eauto.
      * by eexists.
      * intros [row Hrow]. discriminate Hrow.
      * intros (n & [= <-] & Hn). lia.
    + split; [intros [row Hrow]; discriminate Hrow |].
      intros (n & Hn & _). discriminate Hn.
  - intros tip -> Hpos. simpl.
    apply Z.ltb_lt in Hpos. rewrite Hpos. simpl. eauto.
Qed.

Lemma Call_tip_row_witness :
  View.tipRow (Call (TR:=sampleTranslate) (tipProps None) initialExtracted)
  = None
  ∧ View.tipRow (Call (TR:=sampleTranslate) (tipProps (Some 0%Z))
                   initialExtracted) = None
  ∧ ∃ row,
      View.tipRow (Call (TR:=sampleTranslate) (tipProps (Some 7%Z))
                     initialExtracted) = Some row
      ∧ Static.value row = Static.FormatBalance 7
      ∧ Static.className row = "tip"
      ∧ Static.label row = "tip".
Proof.
  split; [| split].
  - apply (proj1 (Call_tip_row (TR:=sampleTranslate) (tipProps None)
                    initialExtracted)).
    by left.
  - apply (proj1 (Call_tip_row (TR:=sampleTranslate) (tipProps (Some 0%Z))
                    initialExtracted)).
    by right.
  - apply (proj2 (proj2 (Call_tip_row (TR:=sampleTranslate)
                           (tipProps (Some 7%Z)) initialExtracted))
             7%Z eq_refl).
    reflexivity.
Defined.

(** ** Members table *)

Lemma Members_rows_map {TR : Translate} (className : option string)
    (ms : list MemberType) :
  Table.rows (Members className (Some ms)) =
  map (fun a => {| Member.key := accountId a; Member.value := a |}) ms.
Proof. reflexivity. Qed.

(** C7: for [N] member records with distinct account identifiers the table
    gets exactly [N] rows, in the order of the input, the key of each row
    being the account identifier of its member; the keys are then distinct
    too. *)
Theorem Members_rows_keyed_in_order {TR : Translate} (className : option string)
    (ms : list MemberType) :
  NoDup (map accountId ms) →
  let rows := Table.rows (Members className (Some ms)) in
  length rows = length ms
  ∧ (∀ i a, ms !! i = Some a →
       ∃ row, rows !! i = Some row
              ∧ Member.value row = a
              ∧ Member.key row = accountId a)
  ∧ map Member.value rows = ms
  ∧ NoDup (map Member.key rows).
Proof.
  intros Hdistinct rows. subst rows. rewrite Members_rows_map.
  split; [| split; [| split]].
  - apply length_map.
  - intros i a Ha. rewrite lookup_map, Ha. simpl. eauto.
  - rewrite map_map. simpl. apply map_id.
  - rewrite map_map. simpl. exact Hdistinct.
Qed.

Lemma Members_rows_keyed_in_order_witness :
  map Member.key
    (Table.rows (Members (TR:=sampleTranslate) None (Some [alice; bob])))
  = ["5GrwvaEF"; "5FHneW46"]
  ∧ length (Table.rows (Members (TR:=sampleTranslate) None (Some [alice; bob])))
    = 2.
Proof.
  assert (Hdistinct : NoDup (map accountId [alice; bob])).
  { simpl. apply NoDup_cons. split.
    - intros Hin. apply list_elem_of_In in Hin. simpl in Hin.
      destruct Hin as [Heq | []]. discriminate Heq.
    - apply NoDup_singleton. }
  destruct (Members_rows_keyed_in_order (TR:=sampleTranslate) None
              [alice; bob] Hdistinct) as (Hlen & _ & _ & _).
  split; [reflexivity | exact Hlen].
Defined.

(** C3 does not hold as stated: for an absent member sequence [Members]
    hands no empty-state message to the table, and for a sequence with a
    member it hands one. *)
Lemma Members_empty_message_counterexample :
  Table.empty (Members (TR:=sampleTranslate) None None) = None
  ∧ Table.empty (Members (TR:=sampleTranslate) None None)
    ≠ Some (t (Translate:=sampleTranslate) "No members found" [])
  ∧ Table.empty (Members (TR:=sampleTranslate) None (Some [alice]))
    = Some (t (Translate:=sampleTranslate) "No members found" [])
  ∧ Table.rows (Members (TR:=sampleTranslate) None (Some [alice])) ≠ [].
Proof.
  split; [reflexivity | split; [discriminate | split; [reflexivity |]]].
  discriminate.
Qed.

(** C3, amended: an empty or absent member sequence gives the table zero
    rows; the localized empty-state message ("No members found") is handed
    to the table exactly when the sequence is present, be it empty or not,
    and no message is handed over when the sequence is absent. *)
Theorem Members_empty_message {TR : Translate} (className : option string)
    (members : option (list MemberType)) :
  (members = None ∨ members = Some [] →
     Table.rows (Members className members) = [])
  ∧ (Table.empty (Members className members)
       = Some (t "No members found" []) ↔ is_Some members)
  ∧ (members = None → Table.empty (Members className members) = None)
  ∧ (members = Some [] →
       Table.empty (Members className members)
       = Some (t "No members found" [])).
Proof.
  split; [| split; [| split]].
  - intros [-> | ->]; reflexivity.
  - destruct members as [ms |]; simpl; split.
    + by eexists.
    + reflexivity.
    + discriminate.
    + intros [ms Hms]. discriminate Hms.
  - intros ->. reflexivity.
  - intros ->. reflexivity.
Qed.

Lemma Members_empty_message_witness :
  Table.rows (Members (TR:=sampleTranslate) None (Some [])) = []
  ∧ Table.empty (Members (TR:=sampleTranslate) None (Some []))
    = Some "No members found"
  ∧ Table.empty (Members (TR:=sampleTranslate) None None) = None.
Proof.
  pose proof (Members_empty_message (TR:=sampleTranslate) None (Some []))
    as (Hrows & _ & _ & Hmsg).
  pose proof (Members_empty_message (TR:=sampleTranslate) None None)
    as (_ & _ & Habsent & _).
  split; [| split].
  - apply Hrows. by right.
  - by apply Hmsg.
  - by apply Habsent.
Defined.

(** ** Further properties of the extraction *)

Lemma truthyStr_Some (s : string) : truthyStr (Some s) = true ↔ s ≠ "".
Proof.
  simpl. destruct (String.eqb_spec s "") as [-> | Hne]; simpl; split;
    congruence.
Qed.

Lemma truthyStr_true (o : option string) :
  truthyStr o = true ↔ ∃ s, o = Some s ∧ s ≠ "".
Proof.
  destruct o as [s |].
  - rewrite truthyStr_Some. split.
    + intros Hne. eauto.
    + intros (s' & [= <-] & Hne). exact Hne.
  - simpl. split; [discriminate |]. intros (s & Hs & _). discriminate Hs.
Qed.

Lemma truthy_true (b : option bool) : truthy b = true ↔ b = Some true.
Proof. destruct b as [[|] |]; simpl; split; congruence. Qed.

Lemma isExtrinsic_true {TY : Types} (value : Ext) :
  isExtrinsic value = true ↔ is_Some (Ext.signature value).
Proof.
  unfold isExtrinsic. destruct (Ext.signature value) as [sig |]; split.
  - by eexists.
  - reflexivity.
  - discriminate.
  - intros [sig Hsig]. discriminate Hsig.
Qed.

Lemma signatureGuard_true {TY : Types} (value : Ext) (ws : option bool) :
  signatureGuard value ws = true ↔
  ws = Some true ∧ is_Some (Ext.signature value)
  ∧ Ext.isSigned value = Some true.
Proof.
  unfold signatureGuard.
  rewrite !andb_true_iff, !truthy_true, isExtrinsic_true. tauto.
Qed.

(** The optional chain to the raw envelope yields a value exactly when all
    three links are there; a missing [_raw], a missing [_raw.signature] or a
    missing [multiSignature] gives [undefined] instead of a failure. *)
Theorem getRawSignature_Some_iff {TY : Types} (value : Ext) (r : RawValue) :
  (getRawSignature value = Some r ↔
   ∃ raw sig, Ext._raw value = Some raw
              ∧ Ext.raw_signature raw = Some sig
              ∧ Ext.multiSignature sig = Some r)
  ∧ (Ext._raw value = None → getRawSignature value = None)
  ∧ (∀ raw, Ext._raw value = Some raw → Ext.raw_signature raw = None →
       getRawSignature value = None).
Proof.
  unfold getRawSignature. split; [| split].
  - destruct (Ext._raw value) as [raw |]; simpl.
    + destruct (Ext.raw_signature raw) as [sig |] eqn:Hsig; simpl.
      * split; [eauto |]. intros (raw' & sig' & [= <-] & Hs & Hm).
        rewrite Hsig in Hs. by injection Hs as <-.
      * split; [discriminate |]. intros (raw' & sig' & [= <-] & Hs & _).
        rewrite Hsig in Hs. discriminate Hs.
    + split; [discriminate |]. intros (raw' & sig' & Hraw & _).
      discriminate Hraw.
  - intros ->. reflexivity.
  - intros raw -> Hsig. simpl. by rewrite Hsig.
Qed.

Lemma getRawSignature_Some_iff_witness :
  getRawSignature signedTransfer
  = Some (EnumValue (TY:=sampleTypes) "Sr25519" (hexCodec "0x5e5e"))
  ∧ getRawSignature transferCall = None.
Proof.
  split.
  - apply (proj1 (getRawSignature_Some_iff (TY:=sampleTypes) signedTransfer
                    (EnumValue (TY:=sampleTypes) "Sr25519"
                       (hexCodec "0x5e5e")))).
    eexists. eexists. repeat split; reflexivity.
  - apply (proj1 (proj2 (getRawSignature_Some_iff (TY:=sampleTypes)
                           transferCall
                           (PlainValue (TY:=sampleTypes) (hexCodec "0x"))))).
    reflexivity.
Defined.

(** The signature is extracted only on request: unless [withSignature] is
    true, the signature and its type stay null, also for a signed
    extrinsic. *)
Theorem extractState_signature_not_requested {TY : Types} (value : Ext)
    (wh ws : option bool) (callName : option string) :
  ws ≠ Some true →
  Extracted.signature (extractState value wh ws callName) = None
  ∧ Extracted.signatureType (extractState value wh ws callName) = None.
Proof.
  intros Hws. rewrite signature_extractState, signatureType_extractState.
  destruct (signatureGuard value ws) eqn:Hguard; [| done].
  apply signatureGuard_true in Hguard. by destruct Hguard as (-> & _).
Qed.

Lemma extractState_signature_not_requested_witness :
  Ext.isSigned signedTransfer = Some true
  ∧ Extracted.signature (extractState signedTransfer None None None) = None
  ∧ Extracted.signatureType
      (extractState signedTransfer None (Some false) None) = None.
Proof.
  split; [reflexivity | split].
  - apply (extractState_signature_not_requested (TY:=sampleTypes)
             signedTransfer None None None).
    discriminate.
  - apply (extractState_signature_not_requested (TY:=sampleTypes)
             signedTransfer None (Some false) None).
    discriminate.
Defined.

(** The extracted signature is some string [h] exactly when the signature
    was requested, the value has a signature whose hex encoding is [h], and
    the value says it is signed. *)
Theorem extractState_signature_iff {TY : Types} (value : Ext)
    (wh ws : option bool) (callName : option string) (h : string) :
  Extracted.signature (extractState value wh ws callName) = Some h ↔
  ws = Some true ∧ Ext.isSigned value = Some true
  ∧ ∃ sig, Ext.signature value = Some sig ∧ h = toHex sig.
Proof.
  rewrite signature_extractState.
  destruct (signatureGuard value ws) eqn:Hguard.
  - apply signatureGuard_true in Hguard.
    destruct Hguard as (-> & [sig Hsig] & Hsigned). rewrite Hsig. simpl.
    split.
    + intros [= <-]. eauto.
    + intros (_ & _ & sig' & [= <-] & ->). reflexivity.
  - split; [discriminate |].
    intros (-> & Hsigned & sig & Hsig & _).
    assert (signatureGuard value (Some true) = true) as Htrue.
    { apply signatureGuard_true. repeat split; [by eexists | done]. }
    congruence.
Qed.

(** A signature type is never reported without a signature: whenever the
    extracted type is a tag, the raw envelope is an [Enum] of that tag and
    the extracted signature is present. *)
Theorem extractState_signatureType_has_signature {TY : Types} (value : Ext)
    (wh ws : option bool) (callName : option string) (tag : string) :
  Extracted.signatureType (extractState value wh ws callName) = Some tag →
  is_Some (Extracted.signature (extractState value wh ws callName))
  ∧ ∃ inner, getRawSignature value = Some (EnumValue tag inner).
Proof.
  rewrite signature_extractState, signatureType_extractState.
  destruct (signatureGuard value ws) eqn:Hguard; [| discriminate].
  apply signatureGuard_true in Hguard.
  destruct Hguard as (_ & [sig Hsig] & _). rewrite Hsig. simpl.
  intros Htag. split; [by eexists |].
  destruct (getRawSignature value) as [[tag' inner | inner] |];
    simpl in Htag; try discriminate.
  injection Htag as <-. by eexists.
Qed.

Lemma extractState_signatureType_has_signature_witness :
  is_Some (Extracted.signature
             (extractState signedTransfer None (Some true) None))
  ∧ ∃ inner, getRawSignature signedTransfer = Some (EnumValue "Sr25519" inner).
Proof.
  apply (extractState_signatureType_has_signature (TY:=sampleTypes)
           signedTransfer None (Some true) None "Sr25519").
  reflexivity.
Defined.

(** A signed extrinsic whose raw envelope cannot be reached (no [_raw], or no
    signature inside it) still yields its signature, with a null type. *)
Theorem extractState_signed_without_raw {TY : Types} (value : Ext)
    (wh : option bool) (callName : option string) (sig : Codec) :
  Ext.signature value = Some sig →
  Ext.isSigned value = Some true →
  getRawSignature value = None →
  Extracted.signature (extractState value wh (Some true) callName)
  = Some (toHex sig)
  ∧ Extracted.signatureType (extractState value wh (Some true) callName)
    = None.
Proof.
  intros Hsig Hsigned Hraw.
  rewrite signature_extractState, signatureType_extractState.
  rewrite (signatureGuard_signed value sig Hsig Hsigned), Hsig, Hraw.
  by split.
Qed.

Lemma extractState_signed_without_raw_witness :
  Extracted.signature (extractState signedNoRaw None (Some true) None)
  = Some "0x5e5e"
  ∧ Extracted.signatureType (extractState signedNoRaw None (Some true) None)
    = None.
Proof.
  apply (extractState_signed_without_raw (TY:=sampleTypes) signedNoRaw None
           None (hexCodec "0x5e5e") eq_refl eq_refl).
  reflexivity.
Defined.

(** ** Further properties of the rendered view *)

Lemma orElse_truthy (a : option ReactNode) (b n : ReactNode) :
  a = Some n → truthyNode a = true → orElse a b = n.
Proof. intros -> Htruthy. unfold orElse. by rewrite Htruthy. Qed.

Lemma orElse_falsy (a : option ReactNode) (b : ReactNode) :
  truthyNode a = false → orElse a b = b.
Proof.
  intros Hfalsy. unfold orElse. destruct a as [n |]; [| done].
  by rewrite Hfalsy.
Qed.

Lemma hashRow_Call {TY : Types} {TR : Translate} (p : Props)
    (st : Extracted) :
  View.hashRow (Call p st) =
  if truthyStr (Extracted.hash st)
  then Some {| Static.className := "hash";
               Static.label :=
                 orElse (Props.labelHash p) (t "extrinsic hash" []);
               Static.value := Static.Text (default "" (Extracted.hash st));
               Static.withCopy := true |}
  else None.
Proof. reflexivity. Qed.

Lemma hash_Call_effect {TY : Types} (p : Props) :
  Extracted.hash (Call_effect p) =
  if truthy (Props.withHash p)
  then Some (toHex (Ext.hash (Props.value p)))
  else None.
Proof. reflexivity. Qed.

(** Once the effect has run for the props at hand, the hash row is shown
    exactly when [withHash] is true and the hex encoding of the hash is not
    the empty string.  The row then shows that hex encoding with a copy
    button, under [labelHash] itself when that is a truthy node (a non-empty
    text, but also an element, a sequence, a non-zero number or [true]), and
    under the translation of "extrinsic hash" when it is absent or falsy. *)
Theorem Call_hash_row_after_effect {TY : Types} {TR : Translate}
    (p : Props) :
  let view := Call p (Call_effect p) in
  let hex := toHex (Ext.hash (Props.value p)) in
  (is_Some (View.hashRow view) ↔ Props.withHash p = Some true ∧ hex ≠ "")
  ∧ (∀ row, View.hashRow view = Some row →
       Static.value row = Static.Text hex
       ∧ Static.withCopy row = true
       ∧ (∀ n, Props.labelHash p = Some n →
            truthyNode (Props.labelHash p) = true → Static.label row = n)
       ∧ (truthyNode (Props.labelHash p) = false →
            Static.label row = NodeText (t "extrinsic hash" []))).
Proof.
  intros view hex. subst view hex.
  rewrite hashRow_Call, hash_Call_effect.
  destruct (truthy (Props.withHash p)) eqn:Hwith.
  - apply truthy_true in Hwith. simpl default.
    destruct (truthyStr (Some (toHex (Ext.hash (Props.value p))))) eqn:Hhex.
    + apply truthyStr_Some in Hhex. split.
      * split; [by intros _ | by eexists].
      * intros row [= <-]. simpl. repeat split.
        -- intros n Hn Htruthy. by apply orElse_truthy.
        -- apply orElse_falsy.
    + split.
      * split; [intros [row Hrow]; discriminate Hrow |].
        intros (_ & Hne). apply truthyStr_Some in Hne. congruence.
      * intros row Hrow. discriminate Hrow.
  - simpl. split.
    + split; [intros [row Hrow]; discriminate Hrow |].
      intros (Hsome & _). apply truthy_true in Hsome. congruence.
    + intros row Hrow. discriminate Hrow.
Qed.

Lemma Call_hash_row_after_effect_witness :
  (∃ row,
     View.hashRow
       (Call (TR:=sampleTranslate)
          (plainProps signedTransfer None)
          (Call_effect (plainProps signedTransfer None))) = Some row
     ∧ Static.value row = Static.Text "0x1234"
     ∧ Static.label row = NodeText "extrinsic hash")
  ∧ (∃ row,
       View.hashRow
         (Call (TR:=sampleTranslate) elementLabelProps
            (Call_effect elementLabelProps)) = Some row
       ∧ Static.label row = NodeElement 1).
Proof.
  split.
  - pose proof (Call_hash_row_after_effect (TR:=sampleTranslate)
                  (plainProps signedTransfer None)) as [Hshown Hrow].
    destruct (proj2 Hshown) as [row Hsome].
    { split; [reflexivity | discriminate]. }
    exists row. split; [exact Hsome |].
    destruct (Hrow row Hsome) as (Hvalue & _ & _ & Hlabel).
    split; [exact Hvalue |]. apply Hlabel. reflexivity.
  - pose proof (Call_hash_row_after_effect (TR:=sampleTranslate)
                  elementLabelProps) as [Hshown Hrow].
    destruct (proj2 Hshown) as [row Hsome].
    { split; [reflexivity | discriminate]. }
    exists row. split; [exact Hsome |].
    destruct (Hrow row Hsome) as (_ & _ & Hlabel & _).
    apply (Hlabel (NodeElement 1)); reflexivity.
Defined.

Lemma signatureRow_Call {TY : Types} {TR : Translate} (p : Props)
    (st : Extracted) :
  View.signatureRow (Call p st) =
  if truthyStr (Extracted.signature st)
  then Some {| Static.className := "hash";
               Static.label :=
                 orElse (Props.labelSignature p)
                   (t "signature {{type}}"
                      [("type",
                        if truthyStr (Extracted.signatureType st)
                        then "(" +:+ default "" (Extracted.signatureType st)
                             +:+ ")"
                        else "")]);
               Static.value :=
                 Static.Text (default "" (Extracted.signature st));
               Static.withCopy := true |}
  else None.
Proof. reflexivity. Qed.

(** Once the effect has run for the props at hand, the signature row is
    shown exactly when [withSignature] is true, the value is signed and the
    hex encoding of its signature is not the empty string; the row then shows
    that hex encoding with a copy button. *)
Theorem Call_signature_row_after_effect {TY : Types} {TR : Translate}
    (p : Props) :
  let view := Call p (Call_effect p) in
  (is_Some (View.signatureRow view) ↔
   Props.withSignature p = Some true
   ∧ Ext.isSigned (Props.value p) = Some true
   ∧ ∃ sig, Ext.signature (Props.value p) = Some sig ∧ toHex sig ≠ "")
  ∧ (∀ row sig, View.signatureRow view = Some row →
       Ext.signature (Props.value p) = Some sig →
       Static.value row = Static.Text (toHex sig)
       ∧ Static.withCopy row = true).
Proof.
  intros view. subst view. rewrite signatureRow_Call. unfold Call_effect.
  rewrite signature_extractState.
  destruct (signatureGuard (Props.value p) (Props.withSignature p))
    eqn:Hguard.
  - apply signatureGuard_true in Hguard.
    destruct Hguard as (Hwith & [sig Hsig] & Hsigned). rewrite Hsig.
    simpl fmap. simpl default.
    destruct (truthyStr (Some (toHex sig))) eqn:Hhex.
    + apply truthyStr_Some in Hhex. split.
      * split; [intros _; eauto 6 | by eexists].
      * intros row sig' [= <-] [= <-]. by split.
    + split.
      * split; [intros [row Hrow]; discriminate Hrow |].
        intros (_ & _ & sig' & [= <-] & Hne).
        apply truthyStr_Some in Hne. congruence.
      * intros row sig' Hrow. discriminate Hrow.
  - simpl. split.
    + split; [intros [row Hrow]; discriminate Hrow |].
      intros (Hwith & Hsigned & sig & Hsig & _).
      assert (signatureGuard (Props.value p) (Props.withSignature p) = true)
        as Htrue.
      { apply signatureGuard_true. repeat split; [done | by eexists | done]. }
      congruence.
    + intros row sig Hrow. discriminate Hrow.
Qed.

Lemma Call_signature_row_after_effect_witness :
  ∃ row,
    View.signatureRow
      (Call (TR:=sampleTranslate)
         (plainProps signedTransfer None)
         (Call_effect (plainProps signedTransfer None))) = Some row
    ∧ Static.value row = Static.Text "0x5e5e".
Proof.
  pose proof (Call_signature_row_after_effect (TR:=sampleTranslate)
                (plainProps signedTransfer None)) as [Hshown Hrow].
  destruct (proj2 Hshown) as [row Hsome].
  { split; [reflexivity | split; [reflexivity |]].
    exists (hexCodec "0x5e5e"). split; [reflexivity | discriminate]. }
  exists row. split; [exact Hsome |].
  exact (proj1 (Hrow row (hexCodec "0x5e5e") Hsome eq_refl)).
Defined.

(** The label of a shown signature row: [labelSignature] itself when that is
    a truthy node (a non-empty text, but also an element, a sequence, a
    non-zero number or [true]); when it is absent or falsy, the translation
    of "signature {{type}}", where the type is the extracted signature type
    in parentheses, or nothing when no type (or an empty one) was
    extracted. *)
Theorem Call_signature_label {TY : Types} {TR : Translate} (p : Props)
    (st : Extracted) (row : Static.Props) :
  View.signatureRow (Call p st) = Some row →
  (∀ n, Props.labelSignature p = Some n →
     truthyNode (Props.labelSignature p) = true → Static.label row = n)
  ∧ (truthyNode (Props.labelSignature p) = false →
     (∀ tag, Extracted.signatureType st = Some tag → tag ≠ "" →
        Static.label row
        = NodeText (t "signature {{type}}" [("type", "(" +:+ tag +:+ ")")]))
     ∧ (Extracted.signatureType st = None
        ∨ Extracted.signatureType st = Some "" →
        Static.label row
        = NodeText (t "signature {{type}}" [("type", "")]))).
Proof.
  rewrite signatureRow_Call.
  destruct (truthyStr (Extracted.signature st)); [| discriminate].
  intros [= <-]. simpl. split.
  - intros n Hn Htruthy. by apply orElse_truthy.
  - intros Hlabel. rewrite (orElse_falsy _ _ Hlabel). split.
    + intros tag -> Hne. by rewrite (proj2 (truthyStr_Some tag) Hne).
    + intros [-> | ->]; reflexivity.
Qed.

Lemma Call_signature_label_witness :
  (∃ row,
     View.signatureRow
       (Call (TR:=sampleTranslate)
          (plainProps signedTransfer None)
          (Call_effect (plainProps signedTransfer None))) = Some row
     ∧ Static.label row
       = NodeText (t (Translate:=sampleTranslate) "signature {{type}}"
                     [("type", "(Sr25519)")]))
  ∧ (∃ row,
       View.signatureRow
         (Call (TR:=sampleTranslate) elementLabelProps
            (Call_effect elementLabelProps)) = Some row
       ∧ Static.label row = NodeElement 2).
Proof.
  split.
  - eexists. split; [reflexivity |].
    refine (proj1 (proj2 (Call_signature_label (TR:=sampleTranslate)
                            (plainProps signedTransfer None)
                            (Call_effect (plainProps signedTransfer None))
                            _ eq_refl) _) "Sr25519" eq_refl _).
    + reflexivity.
    + discriminate.
  - eexists. split; [reflexivity |].
    refine (proj1 (Call_signature_label (TR:=sampleTranslate)
                     elementLabelProps (Call_effect elementLabelProps)
                     _ eq_refl) (NodeElement 2) eq_refl _).
    reflexivity.
Defined.

(** The mortality row follows the props alone: it is shown exactly when
    [mortality] is a non-empty text, it shows that text unchanged under the
    translation of "lifetime", without a copy button, and the content of the
    state cell has no part in it. *)
Theorem Call_mortality_row {TY : Types} {TR : Translate} (p : Props)
    (st st' : Extracted) :
  (is_Some (View.mortalityRow (Call p st)) ↔
   ∃ m, Props.mortality p = Some m ∧ m ≠ "")
  ∧ (∀ m, Props.mortality p = Some m → m ≠ "" →
       View.mortalityRow (Call p st)
       = Some {| Static.className := "mortality";
                 Static.label := t "lifetime" [];
                 Static.value := Static.Text m;
                 Static.withCopy := false |})
  ∧ View.mortalityRow (Call p st') = View.mortalityRow (Call p st).
Proof.
  unfold Call. simpl. split; [| split; [| reflexivity]].
  - rewrite <- truthyStr_true.
    destruct (truthyStr (Props.mortality p)); split; done.
  - intros m Hm Hne.
    rewrite (proj2 (truthyStr_true (Props.mortality p))) by eauto.
    by rewrite Hm.
Qed.

Lemma Call_mortality_row_witness :
  View.mortalityRow
    (Call (TR:=sampleTranslate)
       (decoratedProps remarkCall None) initialExtracted)
  = Some {| Static.className := "mortality";
            Static.label := "lifetime";
            Static.value := Static.Text "mortal, valid from #100 to #164";
            Static.withCopy := false |}.
Proof.
  apply (proj1 (proj2 (Call_mortality_row (TR:=sampleTranslate)
                         (decoratedProps remarkCall None)
                         initialExtracted initialExtracted))
           "mortal, valid from #100 to #164" eq_refl).
  discriminate.
Defined.

(** Before the effect has run, the state cell holds its initial value: the
    first render hands the parameter widget no parameters, no values and no
    overrides, and shows neither the signature row nor the hash row, whatever
    the flags say; the registry and the read-only flag are already there. *)
Theorem Call_first_render {TY : Types} {TR : Translate} (p : Props) :
  let view := Call p (stateAfter []) in
  Params.params (View.params view) = []
  ∧ Params.values (View.params view) = []
  ∧ Params.overrides (View.params view) = None
  ∧ Params.isDisabled (View.params view) = true
  ∧ Params.registry (View.params view) = Ext.registry (Props.value p)
  ∧ View.signatureRow view = None
  ∧ View.hashRow view = None.
Proof. repeat split. Qed.

(** ** The state cell and the dependency array *)

Lemma Call_effect_of_deps {TY : Types} (p q : Props) :
  Call_deps p = Call_deps q → Call_effect p = Call_effect q.
Proof.
  unfold Call_deps, Call_effect. intros [= Hname Hvalue Hhash Hsig].
  by rewrite Hname, Hvalue, Hhash, Hsig.
Qed.

(** Skipping the effect on a change that leaves the dependency array as it
    was loses nothing: the view of the new props over the state extracted
    for the old props is the view over the state the effect would extract
    for the new props. *)
Theorem Call_view_after_skipped_effect {TY : Types} {TR : Translate}
    (p q : Props) :
  Call_deps p = Call_deps q →
  Call q (Call_effect p) = Call q (Call_effect q).
Proof. intros Hdeps. by rewrite (Call_effect_of_deps p q Hdeps). Qed.

Lemma Call_view_after_skipped_effect_witness :
  Call (TR:=sampleTranslate)
    (decoratedProps signedTransfer (Some "staking.bond"))
    (Call_effect (plainProps signedTransfer (Some "staking.bond")))
  = Call (TR:=sampleTranslate)
      (decoratedProps signedTransfer (Some "staking.bond"))
      (Call_effect (decoratedProps signedTransfer (Some "staking.bond"))).
Proof.
  apply (Call_view_after_skipped_effect (TR:=sampleTranslate)
           (plainProps signedTransfer (Some "staking.bond"))
           (decoratedProps signedTransfer (Some "staking.bond"))).
  reflexivity.
Defined.

Lemma foldl_commit_scheduled {TY : Types} (prev : option Props)
    (passes : list Pass) (st : Extracted) :
  scheduled prev passes →
  (∀ q, prev = Some q → st = Call_effect q) →
  ∀ q, last (Pass.props <$> passes) = Some q ∨
       (passes = [] ∧ prev = Some q) →
       foldl commit st passes = Call_effect q.
Proof.
  intros Hsched. revert st.
  induction Hsched as [prev | pass rest Hruns _ IH | prev pass rest Hskip _ IH];
    intros st Hinv q Hlast.
  - destruct Hlast as [Hlast | [_ Hprev]]; [discriminate Hlast |].
    simpl. by apply Hinv.
  - simpl. apply IH.
    + intros q' [= <-]. unfold commit. by rewrite Hruns.
    + destruct Hlast as [Hlast | [Hnil _]]; [| discriminate Hnil].
      destruct rest as [| pass' rest]; [right | left].
      * split; [done |]. simpl in Hlast. by injection Hlast as <-.
      * exact Hlast.
  - simpl. apply IH.
    + intros q' [= <-]. unfold commit.
      destruct (Pass.runsEffect pass) eqn:Hruns; [done |].
      rewrite (Hinv prev eq_refl). apply Call_effect_of_deps. by apply Hskip.
    + destruct Hlast as [Hlast | [Hnil _]]; [| discriminate Hnil].
      destruct rest as [| pass' rest]; [right | left].
      * split; [done |]. simpl in Hlast. by injection Hlast as <-.
      * exact Hlast.
Qed.

(** Over any sequence of render passes in which the effect is scheduled by
    its dependency array, the state cell holds, after the last pass, the
    extraction for the props of that pass: the cached structure is never
    stale, although the effect is skipped on changes of labels, mortality
    and tip. *)
Theorem stateAfter_scheduled {TY : Types} (passes : list Pass)
    (pass : Pass) :
  scheduled None (passes ++ [pass]) →
  stateAfter (passes ++ [pass]) = Call_effect (Pass.props pass).
Proof.
  intros Hsched. unfold stateAfter.
  apply (foldl_commit_scheduled None (passes ++ [pass]) initialExtracted
           Hsched).
  - intros q Hq. discriminate Hq.
  - left. rewrite fmap_app. simpl. apply last_snoc.
Qed.

Lemma stateAfter_scheduled_witness :
  stateAfter cosmeticPasses
  = Call_effect (decoratedProps signedTransfer (Some "balances.transfer")).
Proof.
  apply (stateAfter_scheduled (TY:=sampleTypes)
           [ {| Pass.props :=
                  plainProps signedTransfer (Some "balances.transfer");
                Pass.runsEffect := true |} ]
           {| Pass.props :=
                decoratedProps signedTransfer (Some "balances.transfer");
              Pass.runsEffect := false |}).
  apply scheduled_mount; [reflexivity |].
  apply scheduled_update; [intros _; reflexivity |].
  apply scheduled_done.
Defined.

(** ** Further properties of the members table *)

(** [Members] neither drops nor merges members: there are as many rows as
    records whether or not account identifiers repeat, and the row keys are
    pairwise distinct exactly when the account identifiers are. *)
Theorem Members_keys_distinct_iff {TR : Translate}
    (className : option string) (ms : list MemberType) :
  let rows := Table.rows (Members className (Some ms)) in
  length rows = length ms
  ∧ (NoDup (map Member.key rows) ↔ NoDup (map accountId ms)).
Proof.
  intros rows. subst rows. rewrite Members_rows_map. split.
  - apply length_map.
  - by rewrite map_map.
Qed.

Lemma Members_keys_distinct_iff_witness :
  length (Table.rows (Members (TR:=sampleTranslate) None
                        (Some [alice; carol]))) = 2
  ∧ ¬ NoDup (map Member.key
               (Table.rows (Members (TR:=sampleTranslate) None
                              (Some [alice; carol])))).
Proof.
  destruct (Members_keys_distinct_iff (TR:=sampleTranslate) None
              [alice; carol]) as [Hlen Hiff].
  split; [exact Hlen |].
  intros Hkeys. apply Hiff in Hkeys. simpl in Hkeys.
  apply NoDup_cons in Hkeys. destruct Hkeys as [Hnotin _].
  apply Hnotin. apply list_elem_of_In. simpl. by left.
Defined.

(** The table gets an empty-state message and no row at all exactly when the
    member sequence is present and empty; the row children are handed over
    exactly when the sequence is present. *)
Theorem Members_message_and_no_rows_iff {TR : Translate}
    (className : option string) (members : option (list MemberType)) :
  (is_Some (Table.empty (Members className members))
   ∧ Table.rows (Members className members) = [] ↔ members = Some [])
  ∧ (is_Some (Table.children (Members className members)) ↔ is_Some members)
  ∧ (Table.rows (Members className members) = [] ↔
     members = None ∨ members = Some []).
Proof.
  split; [| split].
  - split.
    + intros [[msg Hmsg] Hrows].
      destruct members as [[| a ms] |];
        [reflexivity | discriminate Hrows | discriminate Hmsg].
    + intros ->. split; [by eexists | reflexivity].
  - destruct members as [ms |]; simpl; split; intros [x Hx];
      try discriminate Hx; by eexists.
  - split.
    + intros Hrows.
      destruct members as [[| a ms] |];
        [by right | discriminate Hrows | by left].
    + intros [-> | ->]; reflexivity.
Qed.
